(** * A shallow embedding of the 6502 emulator core of [src/main.cpp]

    Integers are [Z]; every implicit C++ conversion to [uint8_t] ([Word])
    or [uint16_t] is written out with [u8] / [u16].  [Machine::memory] is a
    [std::array] of 65536 bytes: indexing it outside its bounds is undefined
    behaviour, which the embedding reports as [None].  Reading an
    uninitialised local variable is undefined behaviour as well and is also
    reported as [None].  Neither [None] is a value the C++ program returns:
    [execute_instruction] is a [void] function. *)

From Stdlib Require Import ZArith Bool Lia.
From Stdlib Require List.
Open Scope Z_scope.

(** Conversions to the unsigned C++ types (modulo arithmetic). *)
Definition u8 (x : Z) : Z := x mod 256.
Definition u16 (x : Z) : Z := x mod 65536.

(** Conversion of an integer to [bool] (non-zero is [true]). *)
Definition to_bool (x : Z) : bool := negb (x =? 0).

(** ** The option monad used for undefined behaviour *)
Definition obind {A B : Type} (m : option A) (k : A -> option B) : option B :=
  match m with Some a => k a | None => None end.

Notation "x <- m ;; k" := (obind m (fun x => k))
  (at level 61, m at next level, right associativity).

(** ** [struct CPU] *)
Record CPU := mkCPU {
  PC : Z;  (* uint16_t Program Counter *)
  AC : Z;  (* Word Accumulator *)
  X  : Z;  (* Word X register *)
  Y  : Z;  (* Word Y register *)
  SR : Z;  (* Word Status Register (flags) *)
  SP : Z   (* Word Stack Pointer *)
}.

Definition with_PC (v : Z) (c : CPU) : CPU := mkCPU v (AC c) (X c) (Y c) (SR c) (SP c).
Definition with_AC (v : Z) (c : CPU) : CPU := mkCPU (PC c) v (X c) (Y c) (SR c) (SP c).
Definition with_X  (v : Z) (c : CPU) : CPU := mkCPU (PC c) (AC c) v (Y c) (SR c) (SP c).
Definition with_Y  (v : Z) (c : CPU) : CPU := mkCPU (PC c) (AC c) (X c) v (SR c) (SP c).
Definition with_SR (v : Z) (c : CPU) : CPU := mkCPU (PC c) (AC c) (X c) (Y c) v (SP c).
Definition with_SP (v : Z) (c : CPU) : CPU := mkCPU (PC c) (AC c) (X c) (Y c) (SR c) v.

(** The [Word] registers a [Word&] parameter of the CPU may refer to. *)
Inductive Reg := RAC | RX | RY | RSP.

Definition get_reg (r : Reg) (c : CPU) : Z :=
  match r with RAC => AC c | RX => X c | RY => Y c | RSP => SP c end.

Definition set_reg (r : Reg) (v : Z) (c : CPU) : CPU :=
  match r with
  | RAC => with_AC v c | RX => with_X v c | RY => with_Y v c | RSP => with_SP v c
  end.

(** [struct Flag] *)
Module Flag.
Definition Negative  : Z := 0x80.
Definition Overflow  : Z := 0x40.
Definition Ignored   : Z := 0x20.
Definition Break     : Z := 0x10.
Definition Decimal   : Z := 0x08.
Definition Interrupt : Z := 0x04.
Definition Zero      : Z := 0x02.
Definition Carry     : Z := 0x01.
End Flag.

(** [void clear_flags(Word flags) { SR &= ~flags; }] *)
Definition clear_flags (flags : Z) (c : CPU) : CPU :=
  with_SR (u8 (Z.land (SR c) (Z.lnot flags))) c.

(** [void set_flags(Word flags) { SR |= flags; }] *)
Definition set_flags (flags : Z) (c : CPU) : CPU :=
  with_SR (u8 (Z.lor (SR c) flags)) c.

(** [void assign_flags(Word flags, bool value)] *)
Definition assign_flags (flags : Z) (value : bool) (c : CPU) : CPU :=
  let c1 := with_SR (u8 (Z.land (SR c) (Z.lnot flags))) c in
  with_SR (u8 (Z.lor (SR c1) (if value then flags else 0))) c1.

Definition update_zero_flag (w : Z) (c : CPU) : CPU :=
  assign_flags Flag.Zero (w =? 0) c.

Definition update_negative_flag (w : Z) (c : CPU) : CPU :=
  assign_flags Flag.Negative (to_bool (Z.land w (Z.shiftl 1 7))) c.

(** [void decrement(Word& w)] and [void increment(Word& w)] on a register. *)
Definition decrement (r : Reg) (c : CPU) : CPU :=
  let c1 := set_reg r (u8 (get_reg r c - 1)) c in
  let c2 := update_zero_flag (get_reg r c1) c1 in
  update_negative_flag (get_reg r c2) c2.

Definition increment (r : Reg) (c : CPU) : CPU :=
  let c1 := set_reg r (u8 (get_reg r c + 1)) c in
  let c2 := update_zero_flag (get_reg r c1) c1 in
  update_negative_flag (get_reg r c2) c2.

(** [void transfer(Word& dst, Word src)]: the flags are updated from [AC]. *)
Definition transfer (dst : Reg) (src : Z) (c : CPU) : CPU :=
  let c1 := set_reg dst src c in
  let c2 := update_zero_flag (AC c1) c1 in
  update_negative_flag (AC c2) c2.

Definition nop (c : CPU) : CPU := c.

Definition eor (w : Z) (c : CPU) : CPU :=
  let c1 := with_AC (u8 (Z.lxor (AC c) w)) c in
  let c2 := update_zero_flag (AC c1) c1 in
  update_negative_flag (AC c2) c2.

Definition ora (w : Z) (c : CPU) : CPU :=
  let c1 := with_AC (u8 (Z.lor (AC c) w)) c in
  let c2 := update_zero_flag (AC c1) c1 in
  update_negative_flag (AC c2) c2.

(** [AC += w + (SR & Flag::Carry);] then Zero and Negative; the carry and
    overflow flags are left as a TODO in the source. *)
Definition adc (w : Z) (c : CPU) : CPU :=
  let c1 := with_AC (u8 (AC c + (w + Z.land (SR c) Flag.Carry))) c in
  let c2 := update_zero_flag (AC c1) c1 in
  update_negative_flag (AC c2) c2.

Definition sbc (w : Z) (c : CPU) : CPU :=
  let c1 := with_AC (u8 (AC c - (w + (1 - Z.land (SR c) Flag.Carry)))) c in
  let c2 := update_zero_flag (AC c1) c1 in
  update_negative_flag (AC c2) c2.

(** [void rol(Word& w)] for an operand [w] that is not [SR] itself: the
    result is the value written back through the reference and the CPU. *)
Definition rol (w : Z) (c : CPU) : Z * CPU :=
  let new_carry := Z.shiftr w 7 in
  let w1 := u8 (Z.lor (Z.shiftl w 1) (Z.land (SR c) Flag.Carry)) in
  let c1 := update_zero_flag w1 c in
  let c2 := update_negative_flag w1 c1 in
  (w1, assign_flags Flag.Carry (to_bool new_carry) c2).

Definition lda (w : Z) (c : CPU) : CPU := transfer RAC w c.
Definition ldx (w : Z) (c : CPU) : CPU := transfer RX w c.
Definition ldy (w : Z) (c : CPU) : CPU := transfer RY w c.

Definition dex (c : CPU) : CPU := decrement RX c.
Definition dey (c : CPU) : CPU := decrement RY c.
Definition inx (c : CPU) : CPU := increment RX c.
Definition iny (c : CPU) : CPU := increment RY c.

Definition tax (c : CPU) : CPU := transfer RX (AC c) c.
Definition tay (c : CPU) : CPU := transfer RY (AC c) c.
Definition txa (c : CPU) : CPU := transfer RAC (X c) c.
Definition tya (c : CPU) : CPU := transfer RAC (Y c) c.
Definition tsx (c : CPU) : CPU := transfer RX (SP c) c.
Definition txs (c : CPU) : CPU := with_SP (X c) c.

Definition clc (c : CPU) : CPU := clear_flags Flag.Carry c.
Definition cld (c : CPU) : CPU := clear_flags Flag.Decimal c.
Definition cli (c : CPU) : CPU := clear_flags Flag.Interrupt c.
Definition clv (c : CPU) : CPU := clear_flags Flag.Overflow c.

Definition sec (c : CPU) : CPU := set_flags Flag.Carry c.
Definition sed (c : CPU) : CPU := set_flags Flag.Decimal c.
Definition sei (c : CPU) : CPU := set_flags Flag.Interrupt c.

(** ** [struct Machine] *)
Definition memory_size : Z := 65536.

(** [std::array<Word, memory_size> memory] as the function giving the byte
    stored at each index. *)
Record Machine := mkMachine {
  memory : Z -> Z;
  cpu : CPU
}.

(** [memory[i]]: undefined behaviour outside [0, memory_size). *)
Definition mem_at (m : Machine) (i : Z) : option Z :=
  if (0 <=? i) && (i <? memory_size) then Some (memory m i) else None.

(** [Word read_word(uint16_t address)]; the argument is converted to
    [uint16_t] at the call. *)
Definition read_word (m : Machine) (arg : Z) : option Z :=
  let address := u16 arg in
  mem_at m address.

(** [uint16_t read_long(uint16_t address)]:
    [return uint16_t(memory[address + 1]) << 8 | memory[address];]
    where [address + 1] is computed in [int]. *)
Definition read_long (m : Machine) (arg : Z) : option Z :=
  let address := u16 arg in
  hi <- mem_at m (address + 1) ;;
  lo <- mem_at m address ;;
  Some (u16 (Z.lor (Z.shiftl hi 8) lo)).

(** The decoding of [normal_dispatch]. *)
Definition lo_nibble (opcode : Z) : Z := Z.land opcode 0x0f.
Definition hi_nibble (opcode : Z) : Z := Z.shiftr (Z.land opcode 0xf0) 4.

(** [Word addressing_mode = ((lo_op - 1) >> 1) | (hi_op & 0x01);] *)
Definition addressing_mode (opcode : Z) : Z :=
  u8 (Z.lor (Z.shiftr (lo_nibble opcode - 1) 1) (Z.land (hi_nibble opcode) 0x01)).

(** The [switch (addressing_mode)] of [normal_dispatch].  The locals
    [uint16_t address; uint8_t width;] start uninitialised ([None]); each
    case assigns both.  The outer [None] is an out-of-bounds index. *)
Definition resolve (m : Machine) (mode : Z) : option (option Z * option Z) :=
  let c := cpu m in
  if mode =? 0 then (* (indirect, x) *)
    p <- read_word m (PC c + 1) ;;
    a <- read_long m (p + X c) ;;
    Some (Some (u16 a), Some 2)
  else if mode =? 1 then (* (indirect), y *)
    p <- read_word m (PC c + 1) ;;
    a <- read_long m p ;;
    Some (Some (u16 (a + Y c)), Some 2)
  else if mode =? 2 then (* zero page *)
    p <- read_word m (PC c + 1) ;;
    Some (Some (u16 p), Some 2)
  else if mode =? 3 then (* zero page+x *)
    p <- read_word m (PC c + 1) ;;
    Some (Some (u16 (u8 (p + X c))), Some 2)
  else if mode =? 4 then (* immediate *)
    Some (Some (u16 (PC c + 1)), Some 2)
  else if mode =? 5 then (* absolute, y *)
    a <- read_long m (PC c + 1) ;;
    Some (Some (u16 (a + Y c)), Some 3)
  else if mode =? 6 then (* absolute *)
    a <- read_long m (PC c + 1) ;;
    Some (Some (u16 a), Some 3)
  else if mode =? 7 then (* absolute, x *)
    a <- read_long m (PC c + 1) ;;
    Some (Some (u16 (a + X c)), Some 3)
  else Some (None, None).

(** [void normal_dispatch(Word opcode)]: the instruction applied is always
    [cpu.adc(memory[address])] ("TODO: choose the right instruction"). *)
Definition normal_dispatch (opcode : Z) (m : Machine) : option Machine :=
  r <- resolve m (addressing_mode opcode) ;;
  address <- fst r ;;
  width <- snd r ;;
  v <- mem_at m address ;;
  let c1 := adc v (cpu m) in
  Some (mkMachine (memory m) (with_PC (u16 (PC c1 + width)) c1)).

(** The case labels of [switch (lo_op)] in [execute_instruction]. *)
Definition is_recognized (lo_op : Z) : bool :=
  (lo_op =? 0x01) || (lo_op =? 0x05) || (lo_op =? 0x06) || (lo_op =? 0x09)
  || (lo_op =? 0x0D) || (lo_op =? 0x0E).

(** [void execute_instruction()]: other low nibbles fall out of the switch
    and the function returns with the machine untouched.  ([hi_op] is
    computed by the source but never used.) *)
Definition execute_instruction (m : Machine) : option Machine :=
  opcode <- read_word m (PC (cpu m)) ;;
  let lo_op := Z.land opcode 0x0f in
  if is_recognized lo_op then normal_dispatch opcode m else Some m.

(** The opcode the next step executes. *)
Definition opcode_at_PC (m : Machine) : option Z := read_word m (PC (cpu m)).

(** [void inc(Word& w) { increment(w); }] for an operand [w] that is not a
    register of the CPU (a memory byte): the result is the value written
    back through the reference and the CPU. *)
Definition increment_ref (w : Z) (c : CPU) : Z * CPU :=
  let w1 := u8 (w + 1) in
  let c1 := update_zero_flag w1 c in
  (w1, update_negative_flag w1 c1).

Definition inc (w : Z) (c : CPU) : Z * CPU := increment_ref w c.

(** [rol] applied [n] times to the same location. *)
Fixpoint rol_iter (n : nat) (w : Z) (c : CPU) : Z * CPU :=
  match n with
  | O => (w, c)
  | S n' => let '(w1, c1) := rol w c in rol_iter n' w1 c1
  end.

(** Every field holds a value of its C++ type. *)
Definition cpu_wf (c : CPU) : Prop :=
  0 <= PC c < 65536 /\ 0 <= AC c < 256 /\ 0 <= X c < 256 /\
  0 <= Y c < 256 /\ 0 <= SR c < 256 /\ 0 <= SP c < 256.

Definition machine_wf (m : Machine) : Prop :=
  cpu_wf (cpu m) /\ forall a, 0 <= a < memory_size -> 0 <= memory m a < 256.

(** * Bit-level facts about the flag primitives *)

Lemma testbit_u8 (x i : Z) : 0 <= i < 8 -> Z.testbit (u8 x) i = Z.testbit x i.
Proof.
  intros Hi. unfold u8. change 256 with (2 ^ 8).
  apply Z.mod_pow2_bits_low. lia.
Qed.

Lemma clear_flags_bit (flags : Z) (c : CPU) (i : Z) : 0 <= i < 8 ->
  Z.testbit (SR (clear_flags flags c)) i = Z.testbit (SR c) i && negb (Z.testbit flags i).
Proof.
  intros Hi. unfold clear_flags, with_SR. cbn [SR].
  rewrite testbit_u8, Z.land_spec, Z.lnot_spec by lia. reflexivity.
Qed.

Lemma set_flags_bit (flags : Z) (c : CPU) (i : Z) : 0 <= i < 8 ->
  Z.testbit (SR (set_flags flags c)) i = Z.testbit (SR c) i || Z.testbit flags i.
Proof.
  intros Hi. unfold set_flags, with_SR. cbn [SR].
  rewrite testbit_u8, Z.lor_spec by lia. reflexivity.
Qed.

Lemma assign_flags_bit (flags : Z) (value : bool) (c : CPU) (i : Z) : 0 <= i < 8 ->
  Z.testbit (SR (assign_flags flags value c)) i =
  (Z.testbit (SR c) i && negb (Z.testbit flags i)) || (value && Z.testbit flags i).
Proof.
  intros Hi. unfold assign_flags, with_SR. cbn [SR].
  rewrite testbit_u8, Z.lor_spec, testbit_u8, Z.land_spec, Z.lnot_spec by lia.
  destruct value; [reflexivity|]. rewrite Z.testbit_0_l. reflexivity.
Qed.

(** The flag primitives touch [SR] only. *)
Lemma assign_flags_regs (flags : Z) (value : bool) (c : CPU) :
  PC (assign_flags flags value c) = PC c /\ AC (assign_flags flags value c) = AC c /\
  X (assign_flags flags value c) = X c /\ Y (assign_flags flags value c) = Y c /\
  SP (assign_flags flags value c) = SP c.
Proof. repeat split. Qed.

(** [w & (1 << 7)] is non-zero exactly when bit 7 of [w] is set. *)
Lemma to_bool_land_bit7 (w : Z) :
  to_bool (Z.land w (Z.shiftl 1 7)) = Z.testbit w 7.
Proof.
  unfold to_bool. change (Z.shiftl 1 7) with (2 ^ 7).
  destruct (Z.testbit w 7) eqn:Hb.
  - destruct (Z.eqb_spec (Z.land w (2 ^ 7)) 0) as [E|E]; [|reflexivity].
    exfalso. assert (H := f_equal (fun z => Z.testbit z 7) E). cbn beta in H.
    rewrite Z.land_spec, Hb, Z.pow2_bits_true, Z.testbit_0_l in H by lia.
    discriminate.
  - replace (Z.land w (2 ^ 7)) with 0; [reflexivity|].
    apply Z.bits_inj'. intros n Hn.
    rewrite Z.testbit_0_l, Z.land_spec, Z.pow2_bits_eqb by lia.
    destruct (Z.eqb_spec 7 n); [subst; rewrite Hb|]; now rewrite ?andb_false_r.
Qed.

(** For a byte [w], [w >> 7] is bit 7 of [w]. *)
Lemma to_bool_shiftr7 (w : Z) : 0 <= w < 256 -> to_bool (Z.shiftr w 7) = Z.testbit w 7.
Proof.
  intros Hw. rewrite Z.shiftr_div_pow2 by lia. change (2 ^ 7) with 128.
  assert (B : 0 <= w / 128 < 2)
    by (split; [apply Z.div_pos | apply Z.div_lt_upper_bound]; lia).
  assert (S := Z.testbit_spec' w 7 ltac:(lia)). change (2 ^ 7) with 128 in S.
  unfold to_bool.
  destruct (Z.testbit w 7); cbn [Z.b2z] in S;
    rewrite Z.mod_small in S by lia; rewrite <- S; reflexivity.
Qed.

(** [SR & Flag::Carry] is the carry bit as 0 or 1. *)
Lemma land_carry (sr : Z) : Z.land sr Flag.Carry = Z.b2z (Z.testbit sr 0).
Proof.
  unfold Flag.Carry. change 1 with (Z.ones 1) at 1.
  rewrite (Z.land_ones sr 1) by lia. change (2 ^ 1) with 2.
  rewrite Zmod_odd, Z.bit0_odd. destruct (Z.odd sr); reflexivity.
Qed.

Ltac sr_bits :=
  repeat first [ rewrite assign_flags_bit by lia
               | rewrite clear_flags_bit by lia
               | rewrite set_flags_bit by lia ].

(** Evaluates the bits of constant masks such as [Flag.Carry]. *)
Ltac const_bits :=
  repeat match goal with
  | |- context [Z.testbit ?k ?i] =>
      let b := eval vm_compute in (Z.testbit k i) in
      match b with
      | true => change (Z.testbit k i) with true
      | false => change (Z.testbit k i) with false
      end
  end;
  cbn [negb];
  repeat rewrite ?andb_true_r, ?andb_false_r, ?orb_false_r, ?orb_false_l,
    ?andb_true_l, ?andb_false_l.

Ltac byte_index i :=
  let H := fresh in
  assert (H : i = 0 \/ i = 1 \/ i = 2 \/ i = 3 \/ i = 4 \/ i = 5 \/ i = 6 \/ i = 7)
    by lia;
  repeat destruct H as [H|H]; subst i.

(** A single-flag instruction [f] sets bit [bit] of [SR] to [value] and
    changes no other bit of [SR] and no data register. *)
Definition only_flag_bit (f : CPU -> CPU) (bit : Z) (value : bool) : Prop :=
  forall c : CPU,
    PC (f c) = PC c /\ AC (f c) = AC c /\ X (f c) = X c /\ Y (f c) = Y c /\
    SP (f c) = SP c /\ Z.testbit (SR (f c)) bit = value /\
    (forall i, 0 <= i < 8 -> i <> bit -> Z.testbit (SR (f c)) i = Z.testbit (SR c) i).

Lemma clear_flags_only_bit (flags bit : Z) :
  0 <= bit < 8 ->
  (forall i, 0 <= i < 8 -> Z.testbit flags i = (i =? bit)) ->
  only_flag_bit (clear_flags flags) bit false.
Proof.
  intros Hb Hf c. repeat split.
  - rewrite clear_flags_bit, Hf, Z.eqb_refl by lia. apply andb_false_r.
  - intros i Hi Hne. rewrite clear_flags_bit, Hf by lia.
    apply Z.eqb_neq in Hne. rewrite Hne. apply andb_true_r.
Qed.

Lemma set_flags_only_bit (flags bit : Z) :
  0 <= bit < 8 ->
  (forall i, 0 <= i < 8 -> Z.testbit flags i = (i =? bit)) ->
  only_flag_bit (set_flags flags) bit true.
Proof.
  intros Hb Hf c. repeat split.
  - rewrite set_flags_bit, Hf, Z.eqb_refl by lia. apply orb_true_r.
  - intros i Hi Hne. rewrite set_flags_bit, Hf by lia.
    apply Z.eqb_neq in Hne. rewrite Hne. apply orb_false_r.
Qed.

Ltac flag_constant :=
  intros ? ?; match goal with i : Z |- _ => byte_index i end; reflexivity.

(** ** C9: the flag primitives preserve every bit outside their mask, and
    each of CLC, CLD, CLI, CLV, SEC, SED, SEI changes exactly its own bit
    of the status register and no data register. *)
Theorem flag_primitives_frame (c : CPU) (mask : Z) (value : bool) (i : Z)
    (Hi : 0 <= i < 8) (Hmask : Z.testbit mask i = false) :
  (Z.testbit (SR (clear_flags mask c)) i = Z.testbit (SR c) i /\
   Z.testbit (SR (set_flags mask c)) i = Z.testbit (SR c) i /\
   Z.testbit (SR (assign_flags mask value c)) i = Z.testbit (SR c) i) /\
  only_flag_bit clc 0 false /\ only_flag_bit cld 3 false /\
  only_flag_bit cli 2 false /\ only_flag_bit clv 6 false /\
  only_flag_bit sec 0 true /\ only_flag_bit sed 3 true /\
  only_flag_bit sei 2 true.
Proof.
  refine (conj _ (conj _ (conj _ (conj _ (conj _ (conj _ (conj _ _))))))).
  - rewrite clear_flags_bit, set_flags_bit, assign_flags_bit, Hmask by lia.
    rewrite andb_true_r, orb_false_r, andb_false_r, orb_false_r. now split.
  - apply clear_flags_only_bit; [lia | flag_constant].
  - apply clear_flags_only_bit; [lia | flag_constant].
  - apply clear_flags_only_bit; [lia | flag_constant].
  - apply clear_flags_only_bit; [lia | flag_constant].
  - apply set_flags_only_bit; [lia | flag_constant].
  - apply set_flags_only_bit; [lia | flag_constant].
  - apply set_flags_only_bit; [lia | flag_constant].
Qed.

Lemma flag_primitives_frame_witness :
  Z.testbit (SR (clear_flags Flag.Carry (mkCPU 0 0 0 0 0xFF 0))) 1 = true /\
  Z.testbit (SR (set_flags Flag.Carry (mkCPU 0 0 0 0 0xFF 0))) 1 = true.
Proof.
  destruct (flag_primitives_frame (mkCPU 0 0 0 0 0xFF 0) Flag.Carry true 1
              ltac:(lia) ltac:(reflexivity)) as [[H1 [H2 _]] _].
  rewrite H1, H2. split; reflexivity.
Defined.

(** ** C8: ROL writes back [(w << 1) | carry-in] truncated to a byte, takes
    the new carry from bit 7 of the operand, and sets Zero and Negative from
    the written-back value; on [0x80] with carry-in 0 it gives [0x00] with
    Carry and Zero set. *)
Theorem rol_spec (w : Z) (c : CPU) (Hw : 0 <= w < 256) :
  fst (rol w c) = (Z.lor (Z.shiftl w 1) (Z.b2z (Z.testbit (SR c) 0))) mod 256 /\
  Z.testbit (SR (snd (rol w c))) 0 = Z.testbit w 7 /\
  Z.testbit (SR (snd (rol w c))) 1 = (fst (rol w c) =? 0) /\
  Z.testbit (SR (snd (rol w c))) 7 = Z.testbit (fst (rol w c)) 7 /\
  rol 0x80 (mkCPU 0 0 0 0 0 0) = (0x00, mkCPU 0 0 0 0 (Flag.Zero + Flag.Carry) 0).
Proof.
  unfold rol, update_zero_flag, update_negative_flag. cbn [fst snd].
  repeat split.
  - rewrite land_carry. reflexivity.
  - sr_bits. const_bits. apply to_bool_shiftr7, Hw.
  - sr_bits. const_bits. reflexivity.
  - sr_bits. const_bits. apply to_bool_land_bit7.
Qed.

Lemma rol_spec_witness :
  fst (rol 0x80 (mkCPU 0 0 0 0 0x01 0)) = 0x01 /\
  Z.testbit (SR (snd (rol 0x80 (mkCPU 0 0 0 0 0x01 0)))) 0 = true.
Proof.
  destruct (rol_spec 0x80 (mkCPU 0 0 0 0 0x01 0) ltac:(lia)) as [H1 [H2 _]].
  rewrite H1, H2. split; reflexivity.
Defined.

(** ** C1: [adc] never writes the Carry (bit 0) or Overflow (bit 6) flag.
    At [AC = 0x50], operand [0x50], carry-in 0 the result is [0xA0] with
    only Negative set (Overflow stays clear); at [AC = 0xFF], operand
    [0x01], carry-in 0 the result is [0x00] with only Zero set (Carry stays
    clear). *)
Theorem adc_keeps_carry_overflow :
  (forall (w : Z) (c : CPU),
     Z.testbit (SR (adc w c)) 0 = Z.testbit (SR c) 0 /\
     Z.testbit (SR (adc w c)) 6 = Z.testbit (SR c) 6) /\
  adc 0x50 (mkCPU 0 0x50 0 0 0 0) = mkCPU 0 0xA0 0 0 Flag.Negative 0 /\
  adc 0x01 (mkCPU 0 0xFF 0 0 0 0) = mkCPU 0 0x00 0 0 Flag.Zero 0.
Proof.
  split; [|split; reflexivity].
  intros w c. unfold adc, update_zero_flag, update_negative_flag.
  split; sr_bits; const_bits; reflexivity.
Qed.

(** ** C3: [transfer] computes Zero and Negative from [AC]: LDX, LDY and
    TSX of [0x80] with [AC = 0] set Zero and clear Negative. *)
Theorem transfer_flags_from_AC :
  ldx 0x80 (mkCPU 0 0 0 0 0 0) = mkCPU 0 0 0x80 0 Flag.Zero 0 /\
  ldy 0x80 (mkCPU 0 0 0 0 0 0) = mkCPU 0 0 0 0x80 Flag.Zero 0 /\
  tsx (mkCPU 0 0 0 0 0 0x80) = mkCPU 0 0 0x80 0 Flag.Zero 0x80.
Proof. repeat split. Qed.

(** ** C6: zero page+x resolves to [(byte at PC+1 + X) mod 256], an
    address below [0x100], with width 2. *)
Theorem zeropage_x_in_page_zero (m : Machine) :
  let a := (memory m (u16 (PC (cpu m) + 1)) + X (cpu m)) mod 256 in
  resolve m 3 = Some (Some a, Some 2) /\ 0 <= a < 0x100.
Proof.
  cbv zeta. unfold resolve, read_word, mem_at. cbn -[u16 u8].
  assert (R : 0 <= u16 (PC (cpu m) + 1) < 65536)
    by (unfold u16; apply Z.mod_pos_bound; lia).
  destruct R as [R1 R2].
  apply Z.leb_le in R1. apply Z.ltb_lt in R2. unfold memory_size.
  rewrite R1, R2. cbn -[u16 u8].
  assert (B : 0 <= u8 (memory m (u16 (PC (cpu m) + 1)) + X (cpu m)) < 256)
    by (unfold u8; apply Z.mod_pos_bound; lia).
  unfold u16 at 1. rewrite (Z.mod_small (u8 _)) by lia.
  split; [reflexivity | exact B].
Qed.

(** ** C7: [read_long(0xFFFF)] indexes [memory[0x10000]], past the end of
    the array, whatever the memory holds. *)
Theorem read_long_FFFF_out_of_bounds (m : Machine) :
  read_long m 0xFFFF = None.
Proof. reflexivity. Qed.

(** ** C10: for the recognised low nibbles the addressing mode lies in
    [0..7], so the switch assigns both [address] and [width]. *)
Theorem addressing_mode_assigned (opcode : Z) (m : Machine)
    (Hrec : is_recognized (lo_nibble opcode) = true) :
  0 <= addressing_mode opcode <= 7 /\
  forall r, resolve m (addressing_mode opcode) = Some r ->
    fst r <> None /\ snd r <> None.
Proof.
  assert (P : Z.land (hi_nibble opcode) 0x01 = 0 \/ Z.land (hi_nibble opcode) 0x01 = 1).
  { assert (E : Z.land (hi_nibble opcode) 0x01 = hi_nibble opcode mod 2)
      by exact (Z.land_ones _ 1 ltac:(lia)).
    rewrite E. pose proof (Z.mod_pos_bound (hi_nibble opcode) 2 ltac:(lia)). lia. }
  unfold is_recognized in Hrec. unfold addressing_mode.
  repeat rewrite orb_true_iff in Hrec. rewrite !Z.eqb_eq in Hrec.
  remember (u8 (Z.lor (Z.shiftr (lo_nibble opcode - 1) 1)
                (Z.land (hi_nibble opcode) 0x01))) as k eqn:E.
  assert (M : (0 <=? k) && (k <=? 7) = true).
  { rewrite E. destruct P as [P|P]; rewrite P;
      repeat destruct Hrec as [Hrec|Hrec]; rewrite Hrec; reflexivity. }
  apply andb_true_iff in M. rewrite Z.leb_le, Z.leb_le in M.
  split; [exact M|].
  intros r Hr. unfold resolve in Hr. clear E.
  assert (K : k = 0 \/ k = 1 \/ k = 2 \/ k = 3 \/ k = 4 \/ k = 5 \/ k = 6 \/ k = 7)
    by lia.
  repeat destruct K as [K|K]; rewrite K in Hr; cbn -[read_word read_long u16 u8] in Hr;
    repeat match type of Hr with
    | obind ?o _ = _ => destruct o; cbn [obind] in Hr; [|discriminate]
    end;
    injection Hr as <-; split; discriminate.
Qed.

Lemma addressing_mode_assigned_witness :
  addressing_mode 0x7D = 7.
Proof.
  destruct (addressing_mode_assigned 0x7D
              (mkMachine (fun _ => 0) (mkCPU 0 0 0 0 0 0)) eq_refl) as [_ _].
  reflexivity.
Defined.

(** ** C5: (indirect, x) adds [X] to the pointer byte in [int], without
    wrapping to a byte.  With [0xFF] at [PC+1] and [X = 1] the pointer is
    read from [0x100] and [0x101], outside page zero. *)
Definition mem_c5 (a : Z) : Z :=
  if a =? 0x000 then 0x01 else if a =? 0x001 then 0xFF
  else if a =? 0x100 then 0x34 else if a =? 0x101 then 0x12 else 0.

Definition m_c5 : Machine := mkMachine mem_c5 (mkCPU 0 0 1 0 0 0).

Theorem indexed_indirect_leaves_page_zero :
  addressing_mode 0x01 = 0 /\
  resolve m_c5 0 = Some (Some 0x1234, Some 2) /\
  mem_c5 ((0xFF + 1) mod 256) + 256 * mem_c5 ((0xFF + 2) mod 256) = 0xFF01.
Proof. repeat split. Qed.

(** ** C2: [normal_dispatch] applies ADC whatever the opcode.  ORA #imm
    ([0x09]) and AND #imm ([0x29]) of operand [0x01] with [AC = 0x01] both
    leave [AC = 0x02] (ORA gives [0x01]). *)
Definition mem_c2 (opcode : Z) (a : Z) : Z :=
  if a =? 0 then opcode else if a =? 1 then 0x01 else 0.

Definition m_c2 (opcode : Z) : Machine :=
  mkMachine (mem_c2 opcode) (mkCPU 0 0x01 0 0 0 0).

Theorem dispatch_always_adc :
  option_map cpu (execute_instruction (m_c2 0x09)) = Some (mkCPU 2 0x02 0 0 0 0) /\
  option_map cpu (execute_instruction (m_c2 0x29)) = Some (mkCPU 2 0x02 0 0 0 0) /\
  AC (ora 0x01 (mkCPU 0 0x01 0 0 0 0)) = 0x01.
Proof. repeat split. Qed.

(** ** C4 (as the code has it): an opcode whose low nibble has no case in
    [execute_instruction] falls out of the switch; the step returns
    normally and leaves the machine as it was. *)
Theorem unrecognized_opcode_noop (m : Machine)
    (Hlo : is_recognized (lo_nibble (memory m (u16 (PC (cpu m))))) = false) :
  execute_instruction m = Some m.
Proof.
  unfold execute_instruction, read_word, mem_at.
  assert (R : 0 <= u16 (PC (cpu m)) < 65536)
    by (unfold u16; apply Z.mod_pos_bound; lia).
  destruct R as [R1 R2]. apply Z.leb_le in R1. apply Z.ltb_lt in R2.
  unfold memory_size. rewrite R1, R2. cbn [andb obind].
  unfold lo_nibble in Hlo. rewrite Hlo. reflexivity.
Qed.

Lemma unrecognized_opcode_noop_witness :
  execute_instruction (mkMachine (fun _ => 0x02) (mkCPU 0x1234 7 8 9 0xFF 1))
  = Some (mkMachine (fun _ => 0x02) (mkCPU 0x1234 7 8 9 0xFF 1)).
Proof.
  apply unrecognized_opcode_noop. reflexivity.
Defined.

(** The caller cannot tell an unimplemented opcode from an executed one:
    a step on [0x00] (unrecognised) and a step on [0x09] (recognised) end in
    the same machine, and [execute_instruction] returns nothing else. *)
Definition mem_c4 (a : Z) : Z := if a =? 0 then 0x09 else 0.

Theorem unrecognized_opcode_not_reported :
  is_recognized (lo_nibble (mem_c4 2)) = false /\
  is_recognized (lo_nibble (mem_c4 0)) = true /\
  execute_instruction (mkMachine mem_c4 (mkCPU 2 0 0 0 Flag.Zero 0)) =
  execute_instruction (mkMachine mem_c4 (mkCPU 0 0 0 0 Flag.Zero 0)).
Proof. repeat split. Qed.

(** * Further properties of the CPU operations *)

Lemma u8_ext (a b : Z) :
  (forall i, 0 <= i < 8 -> Z.testbit a i = Z.testbit b i) -> u8 a = u8 b.
Proof.
  intros H. apply Z.bits_inj'. intros n Hn.
  destruct (Z.lt_ge_cases n 8).
  - rewrite !testbit_u8 by lia. apply H. lia.
  - unfold u8. change 256 with (2 ^ 8). rewrite !Z.mod_pow2_bits_high by lia.
    reflexivity.
Qed.

Lemma u8_byte (a : Z) : 0 <= a < 256 -> u8 a = a.
Proof. intros. unfold u8. apply Z.mod_small. lia. Qed.

Lemma u8_range (a : Z) : 0 <= u8 a < 256.
Proof. unfold u8. apply Z.mod_pos_bound. lia. Qed.

Lemma u16_range (a : Z) : 0 <= u16 a < 65536.
Proof. unfold u16. apply Z.mod_pos_bound. lia. Qed.

Lemma byte_bits_high (a n : Z) : 0 <= a < 256 -> 8 <= n -> Z.testbit a n = false.
Proof.
  intros Ha Hn. rewrite <- (Z.mod_small a 256) by lia. change 256 with (2 ^ 8).
  apply Z.mod_pow2_bits_high. lia.
Qed.

Ltac bits_simpl :=
  repeat first [ rewrite testbit_u8 by lia | rewrite Z.lor_spec
               | rewrite Z.land_spec | rewrite Z.lxor_spec
               | rewrite Z.lnot_spec by lia | rewrite Z.testbit_0_l ].

(** ** X1: a second [assign_flags] on the same mask overrides the first;
    hence [update_zero_flag] and [update_negative_flag] are idempotent, and
    they set Zero exactly for a zero value and Negative to bit 7. *)
Theorem update_flags_idempotent (flags w : Z) (v v' : bool) (c : CPU) :
  assign_flags flags v (assign_flags flags v' c) = assign_flags flags v c /\
  update_zero_flag w (update_zero_flag w c) = update_zero_flag w c /\
  update_negative_flag w (update_negative_flag w c) = update_negative_flag w c /\
  Z.testbit (SR (update_zero_flag w c)) 1 = (w =? 0) /\
  Z.testbit (SR (update_negative_flag w c)) 7 = Z.testbit w 7.
Proof.
  assert (L : forall f b b' c0,
             assign_flags f b (assign_flags f b' c0) = assign_flags f b c0).
  { intros f b b' c0. unfold assign_flags, with_SR. cbn [SR PC AC X Y SP].
    f_equal. apply u8_ext. intros i Hi. bits_simpl.
    destruct b, b'; bits_simpl;
      destruct (Z.testbit (SR c0) i), (Z.testbit f i); reflexivity. }
  refine (conj (L _ _ _ _) (conj (L _ _ _ _) (conj (L _ _ _ _) _))).
  unfold update_zero_flag, update_negative_flag.
  split; sr_bits; const_bits; [reflexivity | apply to_bool_land_bit7].
Qed.

(** Zero and Negative of [c'] reflect [v]; the other bits are those of [c]. *)
Definition ZN_of (c c' : CPU) (v : Z) : Prop :=
  Z.testbit (SR c') 1 = (v =? 0) /\ Z.testbit (SR c') 7 = Z.testbit v 7 /\
  forall i, 0 <= i < 8 -> i <> 1 -> i <> 7 -> Z.testbit (SR c') i = Z.testbit (SR c) i.

Lemma ZN_update (c : CPU) (v : Z) :
  ZN_of c (update_negative_flag v (update_zero_flag v c)) v.
Proof.
  unfold ZN_of, update_zero_flag, update_negative_flag.
  split; [|split].
  - sr_bits. const_bits. reflexivity.
  - sr_bits. const_bits. apply to_bool_land_bit7.
  - intros i Hi H1 H7. sr_bits.
    assert (E1 : Z.testbit Flag.Zero i = false)
      by (byte_index i; try reflexivity; lia).
    assert (E7 : Z.testbit Flag.Negative i = false)
      by (byte_index i; try reflexivity; lia).
    rewrite E1, E7. cbn [negb]. rewrite !andb_true_r, !andb_false_r, !orb_false_r.
    reflexivity.
Qed.

(** ** X2: EOR, ORA, ADC, SBC, LDA, INX/INY/DEX/DEY and INC set Zero and
    Negative from the value they write and leave the other six status bits
    unchanged. *)
Theorem ZN_discipline (w : Z) (r : Reg) (c : CPU) :
  ZN_of c (eor w c) (AC (eor w c)) /\
  ZN_of c (ora w c) (AC (ora w c)) /\
  ZN_of c (adc w c) (AC (adc w c)) /\
  ZN_of c (sbc w c) (AC (sbc w c)) /\
  ZN_of c (lda w c) (AC (lda w c)) /\
  ZN_of c (increment r c) (get_reg r (increment r c)) /\
  ZN_of c (decrement r c) (get_reg r (decrement r c)) /\
  ZN_of c (snd (inc w c)) (fst (inc w c)).
Proof.
  refine (conj _ (conj _ (conj _ (conj _ (conj _ (conj _ (conj _ _))))))).
  all:
    first
      [ exact (ZN_update (with_AC (u8 (Z.lxor (AC c) w)) c) _)
      | exact (ZN_update (with_AC (u8 (Z.lor (AC c) w)) c) _)
      | exact (ZN_update (with_AC (u8 (AC c + (w + Z.land (SR c) Flag.Carry))) c) _)
      | exact (ZN_update (with_AC (u8 (AC c - (w + (1 - Z.land (SR c) Flag.Carry)))) c) _)
      | exact (ZN_update (with_AC w c) _)
      | exact (ZN_update c _)
      | destruct r;
        first [ exact (ZN_update (set_reg RAC (u8 (AC c + 1)) c) _)
              | exact (ZN_update (set_reg RX (u8 (X c + 1)) c) _)
              | exact (ZN_update (set_reg RY (u8 (Y c + 1)) c) _)
              | exact (ZN_update (set_reg RSP (u8 (SP c + 1)) c) _)
              | exact (ZN_update (set_reg RAC (u8 (AC c - 1)) c) _)
              | exact (ZN_update (set_reg RX (u8 (X c - 1)) c) _)
              | exact (ZN_update (set_reg RY (u8 (Y c - 1)) c) _)
              | exact (ZN_update (set_reg RSP (u8 (SP c - 1)) c) _) ] ].
Qed.

Lemma u8_of_bits (x : Z) :
  0 <= x -> (forall n, 8 <= n -> Z.testbit x n = false) -> u8 x = x.
Proof.
  intros Hx H. apply Z.bits_inj'. intros n Hn.
  destruct (Z.lt_ge_cases n 8).
  - apply testbit_u8. lia.
  - rewrite H by lia. unfold u8. change 256 with (2 ^ 8).
    apply Z.mod_pow2_bits_high. lia.
Qed.

Lemma eor_AC (w : Z) (c : CPU) : AC (eor w c) = u8 (Z.lxor (AC c) w).
Proof. reflexivity. Qed.

Lemma ora_AC (w : Z) (c : CPU) : AC (ora w c) = u8 (Z.lor (AC c) w).
Proof. reflexivity. Qed.

Lemma adc_AC (w : Z) (c : CPU) :
  AC (adc w c) = u8 (AC c + (w + Z.land (SR c) Flag.Carry)).
Proof. reflexivity. Qed.

Lemma sbc_AC (w : Z) (c : CPU) :
  AC (sbc w c) = u8 (AC c - (w + (1 - Z.land (SR c) Flag.Carry))).
Proof. reflexivity. Qed.

(** ** X3: EOR with the same byte twice restores the accumulator, and EOR
    of the accumulator with itself clears it and sets Zero. *)
Theorem eor_involutive (w : Z) (c : CPU)
    (Ha : 0 <= AC c < 256) (Hw : 0 <= w < 256) :
  AC (eor w (eor w c)) = AC c /\
  AC (eor (AC c) c) = 0 /\ Z.testbit (SR (eor (AC c) c)) 1 = true.
Proof.
  split; [|split].
  - rewrite !eor_AC. transitivity (u8 (AC c)); [|apply u8_byte; lia].
    apply u8_ext. intros i Hi. bits_simpl.
    destruct (Z.testbit (AC c) i), (Z.testbit w i); reflexivity.
  - rewrite eor_AC, Z.lxor_nilpotent. reflexivity.
  - destruct (ZN_update (with_AC (u8 (Z.lxor (AC c) (AC c))) c)
                        (u8 (Z.lxor (AC c) (AC c)))) as [H _].
    assert (H' : Z.testbit (SR (eor (AC c) c)) 1 = (u8 (Z.lxor (AC c) (AC c)) =? 0))
      by exact H.
    rewrite H', Z.lxor_nilpotent. reflexivity.
Qed.

(** ** X4: ORA leaves the bitwise or of two bytes in the accumulator and
    sets Zero exactly when both are zero. *)
Theorem ora_spec (w : Z) (c : CPU) (Ha : 0 <= AC c < 256) (Hw : 0 <= w < 256) :
  AC (ora w c) = Z.lor (AC c) w /\
  Z.testbit (SR (ora w c)) 1 = (AC c =? 0) && (w =? 0).
Proof.
  assert (E : u8 (Z.lor (AC c) w) = Z.lor (AC c) w).
  { apply u8_of_bits; [apply Z.lor_nonneg; lia|].
    intros n Hn. rewrite Z.lor_spec, !byte_bits_high by lia. reflexivity. }
  split.
  - rewrite ora_AC. exact E.
  - destruct (ZN_update (with_AC (u8 (Z.lor (AC c) w)) c) (u8 (Z.lor (AC c) w)))
      as [H _].
    assert (H' : Z.testbit (SR (ora w c)) 1 = (u8 (Z.lor (AC c) w) =? 0)) by exact H.
    rewrite H', E.
    apply Bool.eq_iff_eq_true. rewrite andb_true_iff, !Z.eqb_eq.
    apply Z.lor_eq_0_iff.
Qed.

(** ** X5: increment and decrement of a register wrap modulo 256, undo
    each other, and change no other register nor the program counter. *)
Theorem increment_decrement_roundtrip (r : Reg) (c : CPU)
    (Hr : 0 <= get_reg r c < 256) :
  get_reg r (increment r c) = (get_reg r c + 1) mod 256 /\
  get_reg r (decrement r c) = (get_reg r c - 1) mod 256 /\
  get_reg r (decrement r (increment r c)) = get_reg r c /\
  get_reg r (increment r (decrement r c)) = get_reg r c /\
  PC (increment r c) = PC c /\ PC (decrement r c) = PC c /\
  (forall r', r' <> r ->
     get_reg r' (increment r c) = get_reg r' c /\
     get_reg r' (decrement r c) = get_reg r' c).
Proof.
  assert (U : forall x d, 0 <= x < 256 -> u8 (u8 (x + d) - d) = x).
  { intros x d Hx. unfold u8. rewrite Zminus_mod_idemp_l.
    replace (x + d - d) with x by lia. apply Z.mod_small. lia. }
  assert (U' : forall x d, 0 <= x < 256 -> u8 (u8 (x - d) + d) = x).
  { intros x d Hx. unfold u8. rewrite Zplus_mod_idemp_l.
    replace (x - d + d) with x by lia. apply Z.mod_small. lia. }
  destruct r; cbn -[u8] in *;
    (split; [reflexivity|]); (split; [reflexivity|]);
    (split; [apply U; lia|]); (split; [apply U'; lia|]);
    (split; [reflexivity|]); (split; [reflexivity|]);
    intros r' Hne; destruct r'; (congruence || split; reflexivity).
Qed.

(** ** X6: SBC leaves [(AC - w - (1 - carry)) mod 256] in the accumulator
    and, like ADC, never writes Carry (bit 0) or Overflow (bit 6). *)
Theorem sbc_spec (w : Z) (c : CPU) :
  AC (sbc w c) = (AC c - w - (1 - Z.b2z (Z.testbit (SR c) 0))) mod 256 /\
  Z.testbit (SR (sbc w c)) 0 = Z.testbit (SR c) 0 /\
  Z.testbit (SR (sbc w c)) 6 = Z.testbit (SR c) 6.
Proof.
  split.
  - rewrite sbc_AC, land_carry. unfold u8. f_equal. lia.
  - unfold sbc, update_zero_flag, update_negative_flag.
    split; sr_bits; const_bits; reflexivity.
Qed.

(** ROL on a byte, seen on the pair (operand, carry bit). *)
Definition rot9 (p : Z * bool) : Z * bool :=
  (u8 (Z.lor (Z.shiftl (fst p) 1) (Z.b2z (snd p))), Z.testbit (fst p) 7).

Fixpoint rot9_iter (n : nat) (p : Z * bool) : Z * bool :=
  match n with O => p | S n' => rot9_iter n' (rot9 p) end.

Lemma rol_abs (w : Z) (c : CPU) : 0 <= w < 256 ->
  (fst (rol w c), Z.testbit (SR (snd (rol w c))) 0) = rot9 (w, Z.testbit (SR c) 0) /\
  0 <= fst (rol w c) < 256.
Proof.
  intros Hw. split; [|apply u8_range].
  unfold rol, rot9. cbn [fst snd]. f_equal.
  - rewrite land_carry. reflexivity.
  - unfold update_zero_flag, update_negative_flag. sr_bits. const_bits.
    apply to_bool_shiftr7. exact Hw.
Qed.

Lemma rol_iter_abs (n : nat) : forall w c, 0 <= w < 256 ->
  (fst (rol_iter n w c), Z.testbit (SR (snd (rol_iter n w c))) 0) =
  rot9_iter n (w, Z.testbit (SR c) 0).
Proof.
  induction n as [|n IH]; intros w c Hw; [reflexivity|].
  cbn [rol_iter rot9_iter]. destruct (rol_abs w c Hw) as [A B].
  destruct (rol w c) as [w1 c1]. cbn [fst snd] in A, B.
  rewrite <- A. apply IH. exact B.
Qed.

Lemma forall_byte (P : Z -> bool) :
  List.forallb (fun n => P (Z.of_nat n)) (List.seq 0 256) = true ->
  forall z, 0 <= z < 256 -> P z = true.
Proof.
  intros H z Hz. rewrite List.forallb_forall in H.
  rewrite <- (Z2Nat.id z) by lia. apply H. apply List.in_seq. lia.
Qed.

Definition pair_eqb (p q : Z * bool) : bool :=
  (fst p =? fst q) && Bool.eqb (snd p) (snd q).

Lemma pair_eqb_eq (p q : Z * bool) : pair_eqb p q = true -> p = q.
Proof.
  destruct p as [a b], q as [a' b']. unfold pair_eqb. cbn.
  rewrite andb_true_iff, Z.eqb_eq. intros [-> E].
  apply Bool.eqb_prop in E. subst. reflexivity.
Qed.

Lemma rot9_period (w : Z) (b : bool) : 0 <= w < 256 -> rot9_iter 9 (w, b) = (w, b).
Proof.
  intros Hw. apply pair_eqb_eq.
  assert (H := forall_byte
                 (fun z => pair_eqb (rot9_iter 9 (z, true)) (z, true) &&
                           pair_eqb (rot9_iter 9 (z, false)) (z, false))
                 ltac:(vm_compute; reflexivity) w Hw).
  apply andb_true_iff in H. destruct b; apply H.
Qed.

(** ** X7: ROL is a 9-bit rotation through the carry: nine ROLs of the
    same byte give back the byte and the carry bit. *)
Theorem rol_nine_times_identity (w : Z) (c : CPU) (Hw : 0 <= w < 256) :
  fst (rol_iter 9 w c) = w /\
  Z.testbit (SR (snd (rol_iter 9 w c))) 0 = Z.testbit (SR c) 0.
Proof.
  assert (H := rol_iter_abs 9 w c Hw). rewrite rot9_period in H by exact Hw.
  set (a := fst (rol_iter 9 w c)) in *.
  set (b := Z.testbit (SR (snd (rol_iter 9 w c))) 0) in *.
  clearbody a b. injection H as -> ->. split; reflexivity.
Qed.

(** * Properties of memory reads and of a whole step *)

Lemma mem_at_in (m : Machine) (i : Z) : 0 <= i < 65536 -> mem_at m i = Some (memory m i).
Proof.
  intros H. unfold mem_at, memory_size.
  replace (0 <=? i) with true by (symmetry; apply Z.leb_le; lia).
  replace (i <? 65536) with true by (symmetry; apply Z.ltb_lt; lia).
  reflexivity.
Qed.

Lemma read_word_ok (m : Machine) (a : Z) : read_word m a = Some (memory m (u16 a)).
Proof. unfold read_word. apply mem_at_in, u16_range. Qed.

Lemma read_long_ok (m : Machine) (a : Z) : u16 a <> 65535 ->
  read_long m a = Some (u16 (Z.lor (Z.shiftl (memory m (u16 a + 1)) 8) (memory m (u16 a)))).
Proof.
  intros H. pose proof (u16_range a). unfold read_long. cbv zeta.
  rewrite (mem_at_in m (u16 a + 1)) by lia. cbn [obind].
  rewrite (mem_at_in m (u16 a)) by lia. reflexivity.
Qed.

Lemma read_long_bad (m : Machine) (a : Z) : u16 a = 65535 -> read_long m a = None.
Proof. intros H. unfold read_long. cbv zeta. rewrite H. reflexivity. Qed.

Lemma lor_shiftl8 (hi lo : Z) : 0 <= lo < 256 ->
  Z.lor (Z.shiftl hi 8) lo = 256 * hi + lo.
Proof.
  intros Hlo.
  assert (D : Z.land (Z.shiftl hi 8) lo = 0).
  { apply Z.bits_inj'. intros n Hn. rewrite Z.land_spec, Z.testbit_0_l.
    destruct (Z.lt_ge_cases n 8).
    - rewrite Z.shiftl_spec_low by lia. reflexivity.
    - rewrite (byte_bits_high lo n) by lia. apply andb_false_r. }
  rewrite <- Z.lxor_lor, <- Z.add_nocarry_lxor by exact D.
  rewrite Z.shiftl_mul_pow2 by lia. change (2 ^ 8) with 256. lia.
Qed.

Lemma le_word (hi lo : Z) : 0 <= hi < 256 -> 0 <= lo < 256 ->
  u16 (Z.lor (Z.shiftl hi 8) lo) = 256 * hi + lo.
Proof.
  intros Hhi Hlo. rewrite lor_shiftl8 by exact Hlo. unfold u16.
  apply Z.mod_small. lia.
Qed.

(** ** X8: [read_long] is the little-endian combination of the two bytes
    [read_word] returns at [address] and [address + 1], except at [0xFFFF]. *)
Theorem read_long_little_endian (m : Machine) (a hi lo : Z)
    (Ha : u16 a <> 0xFFFF)
    (Hhi : read_word m (a + 1) = Some hi) (Hlo : read_word m a = Some lo)
    (Bhi : 0 <= hi < 256) (Blo : 0 <= lo < 256) :
  read_long m a = Some (256 * hi + lo).
Proof.
  rewrite read_word_ok in Hhi, Hlo. injection Hhi as <-. injection Hlo as <-.
  assert (E : u16 (a + 1) = u16 a + 1).
  { pose proof (u16_range a). unfold u16 in *.
    rewrite <- Zplus_mod_idemp_l. apply Z.mod_small. lia. }
  rewrite E in *. rewrite read_long_ok, le_word by assumption. reflexivity.
Qed.

Definition mem_x8 (a : Z) : Z :=
  if a =? 0x10 then 0x34 else if a =? 0x11 then 0x12 else 0.

Lemma read_long_little_endian_witness :
  read_long (mkMachine mem_x8 (mkCPU 0 0 0 0 0 0)) 0x10 = Some 0x1234.
Proof.
  apply (read_long_little_endian _ 0x10 0x12 0x34);
    first [reflexivity | lia | discriminate].
Defined.

(** The opcode [execute_instruction] fetches. *)
Definition opcode_of (m : Machine) : Z := memory m (u16 (PC (cpu m))).

(** Opcodes whose addressing mode is 5, 6 or 7 in the comment of
    [normal_dispatch] (absolute, absolute indexed): low nibble [0x0D] or
    [0x0E], or [0x09] with an odd high nibble. *)
Definition absolute_family (op : Z) : bool :=
  (lo_nibble op =? 0x0D) || (lo_nibble op =? 0x0E)
  || ((lo_nibble op =? 0x09) && Z.odd (hi_nibble op)).

Definition opcode_table_check (op : Z) : bool :=
  implb (is_recognized (lo_nibble op))
        ((0 <=? addressing_mode op) && (addressing_mode op <=? 7)
         && Bool.eqb (5 <=? addressing_mode op) (absolute_family op))
  && implb (absolute_family op) (is_recognized (lo_nibble op))
  && implb ((lo_nibble op =? 0x09) && negb (Z.odd (hi_nibble op)))
           (is_recognized (lo_nibble op) && (addressing_mode op =? 4)).

Lemma opcode_table (op : Z) : 0 <= op < 256 ->
  (is_recognized (lo_nibble op) = true ->
     0 <= addressing_mode op <= 7 /\
     (5 <=? addressing_mode op) = absolute_family op) /\
  (absolute_family op = true -> is_recognized (lo_nibble op) = true) /\
  (lo_nibble op = 0x09 -> Z.odd (hi_nibble op) = false ->
     is_recognized (lo_nibble op) = true /\ addressing_mode op = 4).
Proof.
  intros Hop.
  assert (H := forall_byte opcode_table_check ltac:(vm_compute; reflexivity) op Hop).
  unfold opcode_table_check in H. rewrite !andb_true_iff in H.
  destruct H as [[H1 H2] H3]. split; [|split].
  - intros R. rewrite R in H1. cbn in H1. rewrite !andb_true_iff in H1.
    destruct H1 as [[A B] C]. apply Z.leb_le in A. apply Z.leb_le in B.
    apply Bool.eqb_prop in C. split; [lia | exact C].
  - intros F. rewrite F in H2. exact H2.
  - intros L O. rewrite L, O in H3. cbn in H3.
    split; [rewrite L; reflexivity | apply Z.eqb_eq, H3].
Qed.

Lemma execute_unfold (m : Machine) :
  execute_instruction m =
  if is_recognized (lo_nibble (opcode_of m)) then normal_dispatch (opcode_of m) m
  else Some m.
Proof. unfold execute_instruction. rewrite read_word_ok. reflexivity. Qed.

Lemma wf_byte (m : Machine) (a : Z) : machine_wf m -> 0 <= memory m (u16 a) < 256.
Proof. intros [_ Hmem]. apply Hmem. apply u16_range. Qed.

(** The switch of [normal_dispatch] on a well-formed machine: only the
    absolute modes can fail, and only when [PC + 1] is [0xFFFF]. *)
Lemma resolve_cases (m : Machine) (k : Z) :
  machine_wf m -> 0 <= k <= 7 ->
  (5 <= k /\ u16 (PC (cpu m) + 1) = 65535 /\ resolve m k = None) \/
  (~ (5 <= k /\ u16 (PC (cpu m) + 1) = 65535) /\
   exists a, 0 <= a < 65536 /\
     resolve m k = Some (Some a, Some (if 5 <=? k then 3 else 2))).
Proof.
  intros Hwf Hk.
  pose proof (wf_byte m (PC (cpu m) + 1) Hwf) as Hp.
  destruct Hwf as [[_ [_ [HX [HY _]]]] _].
  assert (K : k = 0 \/ k = 1 \/ k = 2 \/ k = 3 \/ k = 4 \/ k = 5 \/ k = 6 \/ k = 7)
    by lia.
  repeat destruct K as [K|K]; subst k; unfold resolve;
    cbn -[read_word read_long u16 u8];
    rewrite ?read_word_ok; cbn [obind].
  - right. split; [lia|].
    rewrite read_long_ok.
    + eexists. split; [|reflexivity]. apply u16_range.
    + unfold u16 at 1. rewrite Z.mod_small; lia.
  - right. split; [lia|].
    rewrite read_long_ok.
    + eexists. split; [|reflexivity]. apply u16_range.
    + unfold u16 at 1. rewrite Z.mod_small; lia.
  - right. split; [lia|]. eexists. split; [|reflexivity]. apply u16_range.
  - right. split; [lia|]. eexists. split; [|reflexivity]. apply u16_range.
  - right. split; [lia|]. eexists. split; [|reflexivity]. apply u16_range.
  - destruct (Z.eq_dec (u16 (PC (cpu m) + 1)) 65535) as [E|E].
    + left. rewrite read_long_bad by exact E. split; [lia|auto].
    + right. split; [lia|]. rewrite read_long_ok by exact E.
      eexists. split; [|reflexivity]. apply u16_range.
  - destruct (Z.eq_dec (u16 (PC (cpu m) + 1)) 65535) as [E|E].
    + left. rewrite read_long_bad by exact E. split; [lia|auto].
    + right. split; [lia|]. rewrite read_long_ok by exact E.
      eexists. split; [|reflexivity]. apply u16_range.
  - destruct (Z.eq_dec (u16 (PC (cpu m) + 1)) 65535) as [E|E].
    + left. rewrite read_long_bad by exact E. split; [lia|auto].
    + right. split; [lia|]. rewrite read_long_ok by exact E.
      eexists. split; [|reflexivity]. apply u16_range.
Qed.

Lemma pc_next (pc : Z) : 0 <= pc < 65536 -> (u16 (pc + 1) = 65535 <-> pc = 65534).
Proof.
  intros H. destruct (Z.eq_dec pc 65535) as [->|N].
  - split; intros E; [discriminate E | lia].
  - unfold u16. rewrite Z.mod_small by lia. lia.
Qed.

(** One step on a well-formed machine: an unrecognised opcode does
    nothing; an absolute-mode opcode at [0xFFFE] reads past the memory; any
    other recognised opcode runs ADC on the resolved operand and advances
    [PC] by 2 or 3. *)
Lemma step_cases (m : Machine) : machine_wf m ->
  (is_recognized (lo_nibble (opcode_of m)) = false /\ execute_instruction m = Some m) \/
  (absolute_family (opcode_of m) = true /\ PC (cpu m) = 0xFFFE /\
   execute_instruction m = None) \/
  (is_recognized (lo_nibble (opcode_of m)) = true /\
   ~ (absolute_family (opcode_of m) = true /\ PC (cpu m) = 0xFFFE) /\
   exists a, 0 <= a < 65536 /\
     resolve m (addressing_mode (opcode_of m)) =
       Some (Some a, Some (if absolute_family (opcode_of m) then 3 else 2)) /\
     execute_instruction m =
       Some (mkMachine (memory m)
               (with_PC (u16 (PC (cpu m) + (if absolute_family (opcode_of m) then 3 else 2)))
                        (adc (memory m a) (cpu m))))).
Proof.
  intros Hwf.
  pose proof (wf_byte m (PC (cpu m)) Hwf) as Hop.
  change (memory m (u16 (PC (cpu m)))) with (opcode_of m) in Hop.
  destruct (opcode_table _ Hop) as [T1 [T2 T3]].
  assert (HPC : 0 <= PC (cpu m) < 65536) by apply Hwf.
  rewrite execute_unfold.
  destruct (is_recognized (lo_nibble (opcode_of m))) eqn:R.
  2: { left. split; reflexivity. }
  destruct (T1 eq_refl) as [Hk Hw].
  destruct (resolve_cases m _ Hwf Hk) as [[H5 [HP Hres]] | [Hn [a [Ha Hres]]]].
  - right; left. split; [|split].
    + rewrite <- Hw. apply Z.leb_le. exact H5.
    + apply pc_next; assumption.
    + unfold normal_dispatch. rewrite Hres. reflexivity.
  - right; right. split; [reflexivity|]. split.
    + intros [F P]. apply Hn. split.
      * apply Z.leb_le. rewrite Hw. exact F.
      * apply pc_next; assumption.
    + exists a. rewrite <- Hw. split; [exact Ha|]. split; [exact Hres|].
      unfold normal_dispatch. rewrite Hres. cbn [obind fst snd].
      rewrite mem_at_in by exact Ha. reflexivity.
Qed.

(** ** X9: on a well-formed machine a step has undefined behaviour exactly
    when an absolute-mode opcode sits at [PC = 0xFFFE] (its operand read
    touches [memory[0x10000]]); every other step is defined. *)
Theorem execute_undefined_iff (m : Machine) (Hwf : machine_wf m) :
  execute_instruction m = None <->
  absolute_family (opcode_of m) = true /\ PC (cpu m) = 0xFFFE.
Proof.
  pose proof (wf_byte m (PC (cpu m)) Hwf) as Hop.
  change (memory m (u16 (PC (cpu m)))) with (opcode_of m) in Hop.
  destruct (opcode_table _ Hop) as [_ [T2 _]].
  destruct (step_cases m Hwf) as [[R E] | [[F [P E]] | [R [N [a [_ [_ E]]]]]]];
    rewrite E.
  - split; [discriminate|]. intros [F _]. rewrite (T2 F) in R. discriminate.
  - split; auto.
  - split; [discriminate|]. intros H. contradiction.
Qed.

Definition mem_x9 (a : Z) : Z := if a =? 0xFFFE then 0x6D else 0.

Lemma execute_undefined_iff_witness :
  execute_instruction (mkMachine mem_x9 (mkCPU 0xFFFE 0 0 0 0 0)) = None.
Proof.
  apply (execute_undefined_iff (mkMachine mem_x9 (mkCPU 0xFFFE 0 0 0 0 0))).
  - split; [cbv [cpu_wf PC AC X Y SR SP cpu]; lia|].
    intros a Ha. cbn [memory]. unfold mem_x9. destruct (a =? 0xFFFE); lia.
  - split; reflexivity.
Defined.



(** ** X11: a step on a recognised opcode advances [PC] by 3 for the
    absolute modes and by 2 otherwise (modulo [0x10000]) and leaves
    [(AC + operand + carry) mod 256] in the accumulator, where the operand
    is the byte at the resolved address. *)
Theorem execute_advances_pc (m m' : Machine) (Hwf : machine_wf m)
    (Hrec : is_recognized (lo_nibble (opcode_of m)) = true)
    (Hs : execute_instruction m = Some m') :
  PC (cpu m') = (PC (cpu m) + (if absolute_family (opcode_of m) then 3 else 2)) mod 65536 /\
  exists a, resolve m (addressing_mode (opcode_of m)) =
              Some (Some a, Some (if absolute_family (opcode_of m) then 3 else 2)) /\
            AC (cpu m') =
              (AC (cpu m) + memory m a + Z.b2z (Z.testbit (SR (cpu m)) 0)) mod 256.
Proof.
  destruct (step_cases m Hwf) as [[R E] | [[F [P E]] | [R [N [a [_ [Hres E]]]]]]].
  - rewrite Hrec in R. discriminate.
  - rewrite E in Hs. discriminate.
  - rewrite E in Hs. injection Hs as <-. split; [reflexivity|].
    exists a. split; [exact Hres|]. cbn [cpu].
    transitivity (AC (adc (memory m a) (cpu m))); [reflexivity|].
    rewrite adc_AC, land_carry. unfold u8. f_equal. lia.
Qed.

Definition mem_x11 (a : Z) : Z :=
  if a =? 0x0200 then 0x6D else if a =? 0x0201 then 0x00
  else if a =? 0x0202 then 0x30 else if a =? 0x3000 then 0x05 else 0.

Lemma execute_advances_pc_witness :
  execute_instruction (mkMachine mem_x11 (mkCPU 0x0200 0x10 0 0 Flag.Carry 0)) =
  Some (mkMachine mem_x11 (mkCPU 0x0203 0x16 0 0 Flag.Carry 0)) /\
  PC (mkCPU 0x0203 0x16 0 0 Flag.Carry 0) = 0x0203.
Proof.
  split; [reflexivity|].
  destruct (execute_advances_pc
              (mkMachine mem_x11 (mkCPU 0x0200 0x10 0 0 Flag.Carry 0))
              (mkMachine mem_x11 (mkCPU 0x0203 0x16 0 0 Flag.Carry 0))) as [H _].
  - split; [cbv [cpu_wf PC AC X Y SR SP cpu Flag.Carry]; lia|].
    intros a Ha. cbn [memory]. unfold mem_x11.
    destruct (a =? 0x0200), (a =? 0x0201), (a =? 0x0202), (a =? 0x3000); lia.
  - reflexivity.
  - reflexivity.
  - exact H.
Defined.

(** ** X12: an immediate opcode (low nibble [0x09], even high nibble) always
    has a defined step: it adds the byte at [PC + 1] with carry and moves
    [PC] on by 2, whatever the rest of memory holds. *)
Theorem execute_immediate (m : Machine) (Hwf : machine_wf m)
    (Hlo : lo_nibble (opcode_of m) = 0x09)
    (Hhi : Z.odd (hi_nibble (opcode_of m)) = false) :
  execute_instruction m =
  Some (mkMachine (memory m)
          (with_PC (u16 (PC (cpu m) + 2))
                   (adc (memory m (u16 (PC (cpu m) + 1))) (cpu m)))).
Proof.
  pose proof (wf_byte m (PC (cpu m)) Hwf) as Hop.
  change (memory m (u16 (PC (cpu m)))) with (opcode_of m) in Hop.
  destruct (opcode_table _ Hop) as [_ [_ T3]].
  destruct (T3 Hlo Hhi) as [R M].
  rewrite execute_unfold, R. unfold normal_dispatch. rewrite M.
  replace (resolve m 4) with (Some (Some (u16 (PC (cpu m) + 1)), Some 2))
    by reflexivity.
  cbn [obind fst snd]. rewrite mem_at_in by apply u16_range. reflexivity.
Qed.

Definition mem_x12 (a : Z) : Z := if a =? 0x0400 then 0x69 else 0x07.

Lemma execute_immediate_witness :
  execute_instruction (mkMachine mem_x12 (mkCPU 0x0400 0x01 0 0 0 0)) =
  Some (mkMachine mem_x12 (mkCPU 0x0402 0x08 0 0 0 0)).
Proof.
  rewrite (execute_immediate (mkMachine mem_x12 (mkCPU 0x0400 0x01 0 0 0 0))).
  - reflexivity.
  - split; [cbv [cpu_wf PC AC X Y SR SP cpu]; lia|].
    intros a Ha. cbn [memory]. unfold mem_x12. destruct (a =? 0x0400); lia.
  - reflexivity.
  - reflexivity.
Defined.



(** ** X14: the addresses the switch of [normal_dispatch] computes on a
    well-formed machine with [PC <> 0xFFFE], where [b = (PC + 1) mod 0x10000]
    and [p] is the byte at [b]: the pointer of the indirect modes is read
    from [p + X] / [p] and the next address without wrapping in page zero;
    the indexed absolute modes wrap modulo [0x10000]. *)
Theorem resolve_table (m : Machine) (Hwf : machine_wf m)
    (HPC : PC (cpu m) <> 0xFFFE) :
  let b := u16 (PC (cpu m) + 1) in
  let p := memory m b in
  let abs := 256 * memory m (b + 1) + memory m b in
  resolve m 0 = Some (Some (256 * memory m (p + X (cpu m) + 1) + memory m (p + X (cpu m))),
                      Some 2) /\
  resolve m 1 = Some (Some ((256 * memory m (p + 1) + memory m p + Y (cpu m)) mod 65536),
                      Some 2) /\
  resolve m 2 = Some (Some p, Some 2) /\
  resolve m 4 = Some (Some b, Some 2) /\
  resolve m 5 = Some (Some ((abs + Y (cpu m)) mod 65536), Some 3) /\
  resolve m 6 = Some (Some abs, Some 3) /\
  resolve m 7 = Some (Some ((abs + X (cpu m)) mod 65536), Some 3).
Proof.
  intros b p abs.
  pose proof (wf_byte m (PC (cpu m) + 1) Hwf) as Hp. fold b in Hp. fold p in Hp.
  destruct Hwf as [[HPC' [_ [HX [HY _]]]] Hmem]. unfold memory_size in Hmem.
  assert (Hb : 0 <= b < 65536) by apply u16_range.
  assert (Hb' : b <> 65535) by (intros E; apply HPC; apply pc_next; auto).
  assert (Up : u16 p = p) by (unfold u16; apply Z.mod_small; lia).
  assert (Upx : u16 (p + X (cpu m)) = p + X (cpu m))
    by (unfold u16; apply Z.mod_small; lia).
  assert (Ub : u16 b = b) by (unfold u16; apply Z.mod_small; lia).
  assert (Abs : read_long m (PC (cpu m) + 1) = Some abs).
  { rewrite read_long_ok by exact Hb'. fold b.
    rewrite le_word by (apply Hmem; lia). reflexivity. }
  assert (W : read_word m (PC (cpu m) + 1) = Some p) by apply read_word_ok.
  refine (conj _ (conj _ (conj _ (conj _ (conj _ (conj _ _))))));
    unfold resolve; cbn -[read_word read_long u16 u8 Z.mul Z.add Z.modulo];
    rewrite ?W, ?Abs; cbn [obind].
  - rewrite read_long_ok by lia. rewrite Upx, le_word by (apply Hmem; lia).
    cbn [obind]. unfold u16 at 1.
    rewrite Z.mod_small
      by (pose proof (Hmem (p + X (cpu m) + 1)); pose proof (Hmem (p + X (cpu m))); lia).
    reflexivity.
  - rewrite read_long_ok by lia. rewrite Up, le_word by (apply Hmem; lia).
    cbn [obind]. reflexivity.
  - rewrite Up. reflexivity.
  - reflexivity.
  - reflexivity.
  - assert (A : 0 <= abs < 65536)
      by (unfold abs; pose proof (Hmem (b + 1)); pose proof (Hmem b); lia).
    unfold u16 at 1. rewrite Z.mod_small by exact A. reflexivity.
  - reflexivity.
Qed.

Lemma wf_x11 : machine_wf (mkMachine mem_x11 (mkCPU 0x0200 0x10 0 0 Flag.Carry 0)).
Proof.
  split; [cbv [cpu_wf PC AC X Y SR SP cpu Flag.Carry]; lia|].
  intros a Ha. cbn [memory]. unfold mem_x11.
  destruct (a =? 0x0200), (a =? 0x0201), (a =? 0x0202), (a =? 0x3000); lia.
Qed.

Lemma resolve_table_witness :
  resolve (mkMachine mem_x11 (mkCPU 0x0200 0x10 0 0 Flag.Carry 0)) 6 =
  Some (Some 0x3000, Some 3).
Proof.
  pose proof (resolve_table _ wf_x11 ltac:(cbn; discriminate)) as H.
  cbv zeta in H. destruct H as [_ [_ [_ [_ [_ [H _]]]]]].
  rewrite H. reflexivity.
Defined.

Lemma eor_involutive_witness :
  AC (eor 0x5A (eor 0x5A (mkCPU 0 0x3C 0 0 0 0))) = 0x3C.
Proof.
  exact (proj1 (eor_involutive 0x5A (mkCPU 0 0x3C 0 0 0 0)
                  ltac:(cbn; lia) ltac:(lia))).
Defined.

Lemma ora_spec_witness :
  AC (ora 0x0F (mkCPU 0 0xF0 0 0 0 0)) = Z.lor 0xF0 0x0F.
Proof.
  exact (proj1 (ora_spec 0x0F (mkCPU 0 0xF0 0 0 0 0) ltac:(cbn; lia) ltac:(lia))).
Defined.

Lemma increment_decrement_roundtrip_witness :
  get_reg RX (increment RX (mkCPU 0 0 0xFF 0 0 0)) = 0 /\
  get_reg RX (decrement RX (increment RX (mkCPU 0 0 0xFF 0 0 0))) = 0xFF.
Proof.
  destruct (increment_decrement_roundtrip RX (mkCPU 0 0 0xFF 0 0 0) ltac:(cbn; lia))
    as [H1 [_ [H3 _]]].
  rewrite H1, H3. split; reflexivity.
Defined.

Lemma rol_nine_times_identity_witness :
  fst (rol_iter 9 0xA5 (mkCPU 0 0 0 0 Flag.Carry 0)) = 0xA5.
Proof.
  exact (proj1 (rol_nine_times_identity 0xA5 (mkCPU 0 0 0 0 Flag.Carry 0) ltac:(lia))).
Defined.
